(** * Marketplace storefront components: carousel state, table row cells, page wiring

    A shallow embedding of three React components of the storefront UI:

    - [FeaturedSection] (the featured-agents carousel: the [currentSlide]
      state, its two navigation handlers, the card click handler and the
      indicator strip),
    - [AgentTableRow] (the runs and rating cells of a table row),
    - [Page] (the marketplace home page, as far as it mounts
      [FeaturedSection]).

    Conventions of the embedding.

    - A component is a function from its props and its state to a view; the
      view carries the event handlers the JSX attaches ([onClick]), and an
      event is handled by calling the handler found in the rendered view.
    - A handler that changes state is a function [State -> State]
      ([setCurrentSlide] with a functional updater); a handler with an
      outside effect returns the list of effects it performs, in order.
    - The slide index is a JavaScript number that only ever takes integral
      values (it starts at 0 and moves by steps of one); it is modelled as
      [Z]. Array lengths are [nat], injected with [Z.of_nat].
    - The [runs] and [rating] members are JavaScript numbers with no such
      restriction; they are IEEE 754 binary64 values, modelled by Rocq's
      primitive [float].
    - Strings are byte strings: a literal holds the UTF-8 bytes of the source
      text. *)

From Stdlib Require Import ZArith Lia.
From Stdlib Require Import Floats.PrimFloat Floats.FloatOps Floats.SpecFloat.
From stdpp Require Import base list list_numbers strings pretty.

Local Open Scope Z_scope.
Local Set Warnings "-register-all".

(** ** Effects visible outside a component *)

(** [router.push(href)] of [next/navigation], and [console.log(...args)]. *)
Inductive effect : Type :=
| RouterPush (href : string)
| ConsoleLog (args : list string).

(** ** JavaScript numbers and their built-in formatting

    What the components call on a number: the truth test of a conditional,
    [Number.prototype.toFixed] and [Number.prototype.toLocaleString]. The
    first two are fixed by ECMA-262 and are modelled after its text, with
    exact integer arithmetic on the mantissa and exponent of the double. The
    third depends on the locale of the host and is an operation of the class
    [Locale]; [enUS] is what a host prints in the locale en-US with the
    default options, and [enUS_arab] what it prints there with the
    Arabic-Indic digits. *)

Definition number : Type := float.

Module Ecma.

(** ToBoolean of a Number: false for +0, -0 and NaN, true otherwise. *)
Definition ToBoolean (x : number) : bool := negb (is_zero x || is_nan x).

(** The decimal digits of a natural number. *)
Definition digits (n : Z) : string := pretty (Z.to_N n).

Fixpoint zeros (k : nat) : string :=
  match k with
  | O => ""
  | S k' => "0" +:+ zeros k'
  end.

(** [s * 10^a] compared with [v * 2^b], exactly. *)
Definition compare_scaled (s a v b : Z) : comparison :=
  (s * 10 ^ Z.max a 0 * 2 ^ Z.max (- b) 0 ?= v * 2 ^ Z.max b 0 * 10 ^ Z.max (- a) 0).

(** The least [n] from [n] on with [m * 2^e < 10^n]. *)
Fixpoint magnitude (fuel : nat) (m e n : Z) : Z :=
  match fuel with
  | O => n
  | S fuel' =>
      match compare_scaled 1 n m e with
      | Gt => n
      | _ => magnitude fuel' m e (n + 1)
      end
  end.

(** Is the decimal [s * 10^p] read back as the double [m * 2^e]? The next
    double above is [2^e] away; the next below is [2^e] away too, or
    [2^(e-1)] when [m] is the least mantissa of its binade. A decimal half
    way to a neighbour is read back as the double of even mantissa. *)
Definition reads_back (m e s p : Z) : bool :=
  let below := if (m =? 2 ^ 52) && (-1074 <? e) then 1 else 2 in
  match compare_scaled s p (4 * m - below) (e - 2),
        compare_scaled s p (4 * m + 2) (e - 2) with
  | Gt, Lt => true
  | Eq, _ | _, Eq => Z.even m
  | _, _ => false
  end.

(** The decimal of [k] digits for [m * 2^e], if there is one: of the two
    [k]-digit decimals around the value, one that is read back as it, the
    nearer when both are, the even one when they are equally near. The
    result is [(s, n)] with [10^(k-1) <= s < 10^k], standing for
    [s * 10^(n-k)]. *)
Definition candidate (m e n k : Z) : option (Z * Z) :=
  let p := n - k in
  let lo := (m * 2 ^ Z.max e 0 * 10 ^ Z.max (- p) 0)
            / (2 ^ Z.max (- e) 0 * 10 ^ Z.max p 0) in
  let hi := lo + 1 in
  let pick :=
    match reads_back m e lo p, reads_back m e hi p with
    | true, true =>
        match compare_scaled (2 * lo + 1) p (2 * m) e with
        | Gt => Some lo
        | Lt => Some hi
        | Eq => Some (if Z.even lo then lo else hi)
        end
    | true, false => Some lo
    | false, true => Some hi
    | false, false => None
    end in
  match pick with
  | Some s => Some (if s =? 10 ^ k then (10 ^ (k - 1), n + 1) else (s, n))
  | None => None
  end.

(** The shortest decimal that is read back as [m * 2^e]: [(s, n, k)]. *)
Fixpoint shortest (fuel : nat) (m e n k : Z) : Z * Z * Z :=
  match fuel with
  | O => (m, n, k)
  | S fuel' =>
      match candidate m e n k with
      | Some (s, n') => (s, n', k)
      | None => shortest fuel' m e n (k + 1)
      end
  end.

(** Number::toString (radix 10) of the positive finite double [m * 2^e]. *)
Definition toString_finite (m e : Z) : string :=
  let '(s, n, k) := shortest 17 m e (magnitude 700 m e (-330)) 1 in
  let d := digits s in
  if (k <=? n) && (n <=? 21) then d +:+ zeros (Z.to_nat (n - k))
  else if (0 <? n) && (n <=? 21) then
    String.substring 0 (Z.to_nat n) d +:+ "." +:+
    String.substring (Z.to_nat n) (Z.to_nat (k - n)) d
  else if (-6 <? n) && (n <=? 0) then "0." +:+ zeros (Z.to_nat (- n)) +:+ d
  else
    let ex := (if 0 <? n - 1 then "+" else "-") +:+ digits (Z.abs (n - 1)) in
    if k =? 1 then d +:+ "e" +:+ ex
    else String.substring 0 1 d +:+ "." +:+
         String.substring 1 (Z.to_nat (k - 1)) d +:+ "e" +:+ ex.

Definition Number_toString (x : number) : string :=
  match Prim2SF x with
  | S754_nan => "NaN"
  | S754_zero _ => "0"
  | S754_infinity false => "Infinity"
  | S754_infinity true => "-Infinity"
  | S754_finite sign m e =>
      (if sign then "-" else "") +:+ toString_finite (Z.pos m) e
  end.

(** The integer [n] for which [n / scale] is nearest to [m * 2^e], the
    larger one when two are equally near. *)
Definition nearest (m e scale : Z) : Z :=
  if 0 <=? e then m * 2 ^ e * scale
  else (2 * m * scale + 2 ^ (- e)) / 2 ^ (1 - e).

(** The digits of [n] with a decimal point before the last [f] of them
    (steps 10 and 11 of Number.prototype.toFixed). *)
Definition fixedPoint (f : nat) (n : Z) : string :=
  let m := if n =? 0 then "0" else digits n in
  if (f =? 0)%nat then m
  else
    let k := String.length m in
    let m := if (k <=? f)%nat then zeros (f + 1 - k) +:+ m else m in
    let k := if (k <=? f)%nat then (f + 1)%nat else k in
    String.substring 0 (k - f) m +:+ "." +:+ String.substring (k - f) f m.

(** Number.prototype.toFixed(fractionDigits), for the arguments it accepts
    ([0 <= fractionDigits <= 100]). *)
Definition Number_toFixed (x : number) (fractionDigits : nat) : string :=
  match Prim2SF x with
  | S754_nan | S754_infinity _ => Number_toString x
  | S754_zero _ => fixedPoint fractionDigits 0
  | S754_finite sign m e =>
      (if sign then "-" else "") +:+
      match compare_scaled (10 ^ 21) 0 (Z.pos m) e with
      | Gt => fixedPoint fractionDigits (nearest (Z.pos m) e (10 ^ Z.of_nat fractionDigits))
      | _ => toString_finite (Z.pos m) e
      end
  end.

(** The host's [Number.prototype.toLocaleString()], called with no argument. *)
Class Locale : Type := { toLocaleString : number -> string }.

(** Digits in groups of three, from the right. *)
Fixpoint grouped (fuel : nat) (d : string) : string :=
  match fuel with
  | O => d
  | S fuel' =>
      let k := String.length d in
      if (k <=? 3)%nat then d
      else grouped fuel' (String.substring 0 (k - 3) d) +:+ "," +:+
           String.substring (k - 3) 3 d
  end.

(** At most three fraction digits, none of them a trailing zero. *)
Definition fraction3 (r : Z) : string :=
  if r =? 0 then ""
  else
    let d := digits r in
    let d := zeros (3 - String.length d) +:+ d in
    "." +:+ (if r mod 100 =? 0 then String.substring 0 1 d
             else if r mod 10 =? 0 then String.substring 0 2 d
             else d).

(** The number of thousandths nearest to the decimal [s * 10^(n-k)], the
    larger one when two are equally near. *)
Definition thousandths (s n k : Z) : Z :=
  let p := n - k + 3 in
  if 0 <=? p then s * 10 ^ p
  else (2 * s + 10 ^ (- p)) / (2 * 10 ^ (- p)).

(** en-US, default options: grouping by thousands with a comma, a point
    before at most three fraction digits, rounding half away from zero. The
    host formats the shortest decimal that is read back as the double (the
    digits [toString] prints), not the exact binary value. *)
Definition toLocaleString_enUS (x : number) : string :=
  match Prim2SF x with
  | S754_nan => "NaN"
  | S754_infinity sign => (if sign then "-" else "") +:+ "∞"
  | S754_zero sign => (if sign then "-" else "") +:+ "0"
  | S754_finite sign m e =>
      let '(s, n, k) := shortest 17 (Z.pos m) e (magnitude 700 (Z.pos m) e (-330)) 1 in
      let t := thousandths s n k in
      let d := digits (t / 1000) in
      (if sign then "-" else "") +:+ grouped (String.length d) d +:+ fraction3 (t mod 1000)
  end.

Definition enUS : Locale := {| toLocaleString := toLocaleString_enUS |}.

(** The same locale with the numbering system [arab] (the locale tag
    en-US-u-nu-arab): the digits are the Arabic-Indic ones (U+0660 to
    U+0669), the group separator is U+066C, the decimal separator U+066B,
    and the minus sign is preceded by U+061C. *)
Fixpoint arabicIndic (text : string) : string :=
  match text with
  | EmptyString => EmptyString
  | String c rest =>
      (if String.eqb (String c "") "0" then "٠"
       else if String.eqb (String c "") "1" then "١"
       else if String.eqb (String c "") "2" then "٢"
       else if String.eqb (String c "") "3" then "٣"
       else if String.eqb (String c "") "4" then "٤"
       else if String.eqb (String c "") "5" then "٥"
       else if String.eqb (String c "") "6" then "٦"
       else if String.eqb (String c "") "7" then "٧"
       else if String.eqb (String c "") "8" then "٨"
       else if String.eqb (String c "") "9" then "٩"
       else if String.eqb (String c "") "," then "٬"
       else if String.eqb (String c "") "." then "٫"
       else if String.eqb (String c "") "-" then "؜-"
       else String c "")
      +:+ arabicIndic rest
  end.

Definition enUS_arab : Locale :=
  {| toLocaleString := fun x => arabicIndic (toLocaleString_enUS x) |}.

End Ecma.

(** ** AgentTableRow.tsx *)

Module AgentTableRow.
Import Ecma.

(** The elements the two cells are built from. *)
Inductive node : Type :=
| Text (s : string)
| Div (className : string) (children : list node)
| Span (className : string) (children : list node)
| IconStarFilled (className : string).

(** [status] has the type [StatusType] of the Status component, which the
    row only hands on; it stays a parameter. A member declared with [?] is
    [undefined] when absent. *)
Record AgentTableRowProps (StatusType : Type) : Type := {
  agentName : string;
  description : string;
  imageSrc : string;
  dateSubmitted : string;
  status : StatusType;
  runs : option number;
  rating : option number;
  onEdit : unit -> list effect;
  id : string;
}.
Arguments agentName {StatusType}.
Arguments description {StatusType}.
Arguments imageSrc {StatusType}.
Arguments dateSubmitted {StatusType}.
Arguments status {StatusType}.
Arguments runs {StatusType}.
Arguments rating {StatusType}.
Arguments onEdit {StatusType}.
Arguments id {StatusType}.

(** The em dash shown for a missing metric (U+2014). *)
Definition dash : string := "—".

(** Runs column: [{runs?.toLocaleString() ?? '—'}]. The optional call is
    [undefined] exactly when [runs] is, and [??] then chooses the dash. *)
Definition runsColumn `{Locale} (runs : option number) : node :=
  Div "text-sm text-neutral-600 text-right"
      [Text (default dash (toLocaleString <$> runs))].

(** The two alternatives of the reviews column. *)
Definition ratingWithStar (text : string) : node :=
  Div "flex items-center justify-end gap-1"
      [Span "text-sm font-medium text-neutral-800" [Text text];
       IconStarFilled "h-4 w-4 text-neutral-800"].

Definition ratingDash : node :=
  Span "text-sm text-neutral-600" [Text dash].

(** Reviews column: [{rating ? (... rating.toFixed(1) ...) : (... — ...)}].
    The condition is the truth value of [rating]: false when it is
    [undefined], and ToBoolean of the number otherwise. *)
Definition reviewsColumn (rating : option number) : node :=
  Div "text-right"
      [match rating with
       | Some r => if ToBoolean r then ratingWithStar (Number_toFixed r 1) else ratingDash
       | None => ratingDash
       end].

(** What the row shows of its metrics, with the id of its checkbox and the
    handler of its menu button. The cells for the image, the name, the date
    and the status print their props unchanged and are left out. *)
Record View : Type := {
  checkboxId : string;
  runsCell : node;
  reviewsCell : node;
  menuButton_onClick : unit -> list effect;
}.

Definition AgentTableRow `{Locale} {StatusType : Type}
  (props : AgentTableRowProps StatusType) : View :=
  {| checkboxId := "agent-" +:+ id props +:+ "-checkbox";
     runsCell := runsColumn (runs props);
     reviewsCell := reviewsColumn (rating props);
     menuButton_onClick := onEdit props |}.

End AgentTableRow.

(** ** FeaturedSection.tsx *)

Module FeaturedSection.

Record FeaturedAgent : Type := {
  slug : string;
  agent_name : string;
  agent_image : string;
  creator : string;
  creator_avatar : string;
  sub_heading : string;
  description : string;
  runs : number;
  rating : number;
}.

Record FeaturedSectionProps : Type := {
  featuredAgents : list FeaturedAgent;
}.

(** [const [currentSlide, setCurrentSlide] = useState(0)] *)
Record State : Type := { currentSlide : Z }.

Definition initialState : State := {| currentSlide := 0 |}.

(** [setCurrentSlide(update)] with a functional updater. *)
Definition setCurrentSlide (update : Z -> Z) (st : State) : State :=
  {| currentSlide := update (currentSlide st) |}.

(** [router.push(`/store/agent/${creator}/${slug}`)] *)
Definition handleCardClick (creator slug : string) : list effect :=
  [RouterPush ("/store/agent/" +:+ creator +:+ "/" +:+ slug)].

(** [setCurrentSlide((prev) => prev === 0 ? featuredAgents.length - 1 : prev - 1)] *)
Definition handlePrevSlide (featuredAgents : list FeaturedAgent) : State -> State :=
  setCurrentSlide (fun prev =>
    if prev =? 0 then Z.of_nat (length featuredAgents) - 1 else prev - 1).

(** [setCurrentSlide((prev) => prev === featuredAgents.length - 1 ? 0 : prev + 1)] *)
Definition handleNextSlide (featuredAgents : list FeaturedAgent) : State -> State :=
  setCurrentSlide (fun prev =>
    if prev =? Z.of_nat (length featuredAgents) - 1 then 0 else prev + 1).

(** The props the section hands to each [FeaturedStoreCard]. *)
Record FeaturedStoreCardProps : Type := {
  agentName : string;
  subHeading : string;
  agentImage : string;
  creatorName : string;
  card_description : string;
  card_runs : number;
  card_rating : number;
  onClick : unit -> list effect;
}.

(** [opts] of the [Carousel]. *)
Record CarouselOpts : Type := {
  loop : bool;
  startIndex : Z;
  duration : Z;
}.

(** The two [className]s of an indicator mark: the elongated bar of the
    current slide and the round dot of every other slide. *)
Definition indicatorActive : string :=
  "h-3 w-[52px] rounded-[39px] bg-neutral-800 transition-all duration-500".
Definition indicatorIdle : string :=
  "h-3 w-3 rounded-full bg-neutral-300 transition-all duration-500".

(** What the component renders: the carousel with one card per agent, the
    indicator strip (one [className] per mark), and the two arrow buttons
    with their handlers. *)
Record View : Type := {
  carouselOpts : CarouselOpts;
  carouselItems : list FeaturedStoreCardProps;
  indicators : list string;
  prevButton_onClick : State -> State;
  nextButton_onClick : State -> State;
}.

Definition FeaturedSection (props : FeaturedSectionProps) (st : State) : View :=
  let featuredAgents := featuredAgents props in
  let currentSlide := currentSlide st in
  {| carouselOpts := {| loop := true; startIndex := currentSlide; duration := 500 |};
     carouselItems :=
       imap (fun (index : nat) (agent : FeaturedAgent) =>
               {| agentName := agent_name agent;
                  subHeading := sub_heading agent;
                  agentImage := agent_image agent;
                  creatorName := creator agent;
                  card_description := description agent;
                  card_runs := runs agent;
                  card_rating := rating agent;
                  onClick := fun _ => handleCardClick (creator agent) (slug agent) |})
            featuredAgents;
     indicators :=
       imap (fun (index : nat) (_ : FeaturedAgent) =>
               if currentSlide =? Z.of_nat index then indicatorActive else indicatorIdle)
            featuredAgents;
     prevButton_onClick := handlePrevSlide featuredAgents;
     nextButton_onClick := handleNextSlide featuredAgents |}.

(** The clicks the rendered view reacts to. *)
Inductive event : Type :=
| ClickPrev
| ClickNext
| ClickCard (index : nat).

(** One click: the handler is taken from the view rendered for the current
    state. A click on a card that is not rendered reaches no handler. *)
Definition dispatch (props : FeaturedSectionProps) (st : State) (ev : event)
  : State * list effect :=
  let view := FeaturedSection props st in
  match ev with
  | ClickPrev => (prevButton_onClick view st, [])
  | ClickNext => (nextButton_onClick view st, [])
  | ClickCard index =>
      match carouselItems view !! index with
      | Some card => (st, onClick card ())
      | None => (st, [])
      end
  end.

(** A sequence of clicks, from left to right, with the effects in order. *)
Fixpoint run (props : FeaturedSectionProps) (st : State) (evs : list event)
  : State * list effect :=
  match evs with
  | [] => (st, [])
  | ev :: evs' =>
      let '(st1, out1) := dispatch props st ev in
      let '(st2, out2) := run props st1 evs' in
      (st2, out1 ++ out2)
  end.

(** The index names one of the slides. *)
Definition inRange (featuredAgents : list FeaturedAgent) (st : State) : Prop :=
  0 <= currentSlide st < Z.of_nat (length featuredAgents).

End FeaturedSection.


(** ** marketplace/home/Page.tsx *)

Module Page.

(** The page hands [featuredAgents] on without reading a member of its
    elements, so their type is a parameter here. (The element type that
    Page.tsx declares has other member names than [FeaturedAgent].) The
    other props feed sibling components and are left out. *)
Record PageProps (Agent : Type) : Type := {
  featuredAgents : list Agent;
}.
Arguments featuredAgents {Agent}.

(** [console.log("Clicked on agent:", agentName)] *)
Definition handleCardClick (agentName : string) : list effect :=
  [ConsoleLog ["Clicked on agent:"; agentName]].

(** The attributes of a [<FeaturedSection ... />] element as the page writes
    it: the agents and a callback. *)
Record FeaturedSectionElement : Type := {
  attr_featuredAgents : list FeaturedSection.FeaturedAgent;
  attr_onCardClick : string -> list effect;
}.

(** [<FeaturedSection featuredAgents={featuredAgents} onCardClick={handleCardClick} />] *)
Definition Page (props : PageProps FeaturedSection.FeaturedAgent) : FeaturedSectionElement :=
  {| attr_featuredAgents := featuredAgents props;
     attr_onCardClick := handleCardClick |}.

(** Mounting the element calls the component with the attribute object; the
    component's parameter pattern [{ featuredAgents }] reads that one
    member. *)
Definition mount (el : FeaturedSectionElement) : FeaturedSection.FeaturedSectionProps :=
  {| FeaturedSection.featuredAgents := attr_featuredAgents el |}.

End Page.

(** ** Sample data

    Three agents after the fixture of the component's story
    (FeaturedSection.stories.tsx), in the shape of [FeaturedAgent]. The
    story names the agent, the creator, the description, the runs and the
    rating; the slugs below are chosen here, and the members the story does
    not give are empty. A row for the table component, with given metrics. *)

Module Sample.
Import FeaturedSection.
#[local] Set Warnings "-inexact-float".

Definition seoOptimizer : FeaturedAgent :=
  {| slug := "seo-optimizer-pro";
     agent_name := "SEO Optimizer Pro";
     agent_image := "";
     creator := "AI Solutions Inc.";
     creator_avatar := "";
     sub_heading := "";
     description := "Boost your website's search engine rankings with our advanced AI-powered SEO optimization tool.";
     runs := 50000%float;
     rating := 4.7%float |}.

Definition contentWriter : FeaturedAgent :=
  {| slug := "content-writer-ai";
     agent_name := "Content Writer AI";
     agent_image := "";
     creator := "WordCraft AI";
     creator_avatar := "";
     sub_heading := "";
     description := "Generate high-quality, engaging content for your blog, social media, or marketing campaigns.";
     runs := 75000%float;
     rating := 4.5%float |}.

Definition dataAnalyzer : FeaturedAgent :=
  {| slug := "data-analyzer-lite";
     agent_name := "Data Analyzer Lite";
     agent_image := "";
     creator := "DataTech";
     creator_avatar := "";
     sub_heading := "";
     description := "A basic tool for analyzing small to medium-sized datasets.";
     runs := 10000%float;
     rating := 3.8%float |}.

Definition mockFeaturedAgents : list FeaturedAgent :=
  [seoOptimizer; contentWriter; dataAnalyzer].

(** The stories [Default] and [NoAgents]. *)
Definition Default : FeaturedSectionProps := {| featuredAgents := mockFeaturedAgents |}.
Definition NoAgents : FeaturedSectionProps := {| featuredAgents := [] |}.

Definition row (runs rating : option number) : AgentTableRow.AgentTableRowProps unit :=
  {| AgentTableRow.agentName := "Content Writer AI";
     AgentTableRow.description := "";
     AgentTableRow.imageSrc := "";
     AgentTableRow.dateSubmitted := "";
     AgentTableRow.status := ();
     AgentTableRow.runs := runs;
     AgentTableRow.rating := rating;
     AgentTableRow.onEdit := fun _ => [];
     AgentTableRow.id := "1" |}.

End Sample.

(** ** Notions used to state further properties *)

Module Clicks.
Import FeaturedSection.
Import Stdlib.Strings.Ascii.

(** The clicks on the next button minus the clicks on the previous button. *)
Fixpoint netClicks (evs : list event) : Z :=
  match evs with
  | [] => 0
  | ClickNext :: evs' => 1 + netClicks evs'
  | ClickPrev :: evs' => -1 + netClicks evs'
  | ClickCard _ :: evs' => netClicks evs'
  end.

(** What the clicks on cards amount to, one after the other: a click on the
    card of an agent pushes that agent's path, a click elsewhere nothing. *)
Fixpoint cardPushes (featuredAgents : list FeaturedAgent) (evs : list event)
  : list effect :=
  match evs with
  | [] => []
  | ClickCard k :: evs' =>
      match featuredAgents !! k with
      | Some agent =>
          RouterPush ("/store/agent/" +:+ creator agent +:+ "/" +:+ slug agent)
          :: cardPushes featuredAgents evs'
      | None => cardPushes featuredAgents evs'
      end
  | _ :: evs' => cardPushes featuredAgents evs'
  end.

(** No character of the string is a slash. *)
Fixpoint slashFree (s : string) : bool :=
  match s with
  | EmptyString => true
  | String a s' => negb (Ascii.eqb a "/"%char) && slashFree s'
  end.

End Clicks.

(** The story [SingleAgent], and a table row with a given id. *)
Module MoreSamples.

Definition SingleAgent : FeaturedSection.FeaturedSectionProps :=
  {| FeaturedSection.featuredAgents := [Sample.seoOptimizer] |}.

Definition rowWithId (id : string) : AgentTableRow.AgentTableRowProps unit :=
  {| AgentTableRow.agentName := "Content Writer AI";
     AgentTableRow.description := "";
     AgentTableRow.imageSrc := "";
     AgentTableRow.dateSubmitted := "";
     AgentTableRow.status := ();
     AgentTableRow.runs := None;
     AgentTableRow.rating := None;
     AgentTableRow.onEdit := fun _ => [];
     AgentTableRow.id := id |}.

End MoreSamples.

(** * Properties *)

Import FeaturedSection.

(** ** The navigation handlers on an index that names a slide *)

Section Navigation.
Variable featuredAgents : list FeaturedAgent.
Abbreviation N := (Z.of_nat (length featuredAgents)).

Lemma handleNextSlide_cases st :
  currentSlide (handleNextSlide featuredAgents st) =
  if currentSlide st =? N - 1 then 0 else currentSlide st + 1.
Proof. reflexivity. Qed.

Lemma handlePrevSlide_cases st :
  currentSlide (handlePrevSlide featuredAgents st) =
  if currentSlide st =? 0 then N - 1 else currentSlide st - 1.
Proof. reflexivity. Qed.

(** Advance is [(index + 1) mod N] on every index in range. *)
Lemma handleNextSlide_mod st :
  inRange featuredAgents st ->
  currentSlide (handleNextSlide featuredAgents st) = (currentSlide st + 1) mod N.
Proof.
  unfold inRange; intros Hr. rewrite handleNextSlide_cases.
  destruct (Z.eqb_spec (currentSlide st) (N - 1)) as [He | Hne].
  - rewrite He. replace (N - 1 + 1) with N by lia.
    symmetry; apply Z_mod_same_full.
  - symmetry; apply Z.mod_small; lia.
Qed.

(** Retreat is [(index - 1 + N) mod N] on every index in range. *)
Lemma handlePrevSlide_mod st :
  inRange featuredAgents st ->
  currentSlide (handlePrevSlide featuredAgents st) = (currentSlide st - 1 + N) mod N.
Proof.
  unfold inRange; intros Hr. rewrite handlePrevSlide_cases.
  destruct (Z.eqb_spec (currentSlide st) 0) as [He | Hne].
  - rewrite He. replace (0 - 1 + N) with (N - 1) by lia.
    symmetry; apply Z.mod_small; lia.
  - replace (currentSlide st - 1 + N) with (currentSlide st - 1 + 1 * N) by lia.
    rewrite Z_mod_plus_full. symmetry; apply Z.mod_small; lia.
Qed.

Lemma handleNextSlide_inRange st :
  inRange featuredAgents st -> inRange featuredAgents (handleNextSlide featuredAgents st).
Proof.
  unfold inRange; intros Hr. rewrite handleNextSlide_cases.
  destruct (Z.eqb_spec (currentSlide st) (N - 1)); lia.
Qed.

Lemma handlePrevSlide_inRange st :
  inRange featuredAgents st -> inRange featuredAgents (handlePrevSlide featuredAgents st).
Proof.
  unfold inRange; intros Hr. rewrite handlePrevSlide_cases.
  destruct (Z.eqb_spec (currentSlide st) 0); lia.
Qed.

Lemma State_eq (st st' : State) : currentSlide st = currentSlide st' -> st = st'.
Proof. destruct st, st'; simpl; congruence. Qed.

(** [k] advances move an index in range to [(index + k) mod N]. *)
Lemma handleNextSlide_iter (k : nat) st :
  inRange featuredAgents st ->
  inRange featuredAgents (Nat.iter k (handleNextSlide featuredAgents) st) /\
  currentSlide (Nat.iter k (handleNextSlide featuredAgents) st)
  = (currentSlide st + Z.of_nat k) mod N.
Proof.
  intros Hr. induction k as [| k [IHr IHv]].
  - split; [exact Hr |]. simpl. rewrite Z.add_0_r.
    symmetry; apply Z.mod_small; exact Hr.
  - rewrite Nat.iter_succ. split; [apply handleNextSlide_inRange, IHr |].
    rewrite (handleNextSlide_mod _ IHr), IHv, Zplus_mod_idemp_l.
    f_equal; lia.
Qed.

End Navigation.

(** ** Clicks *)

Lemma dispatch_state props st ev :
  fst (dispatch props st ev) =
  match ev with
  | ClickPrev => handlePrevSlide (featuredAgents props) st
  | ClickNext => handleNextSlide (featuredAgents props) st
  | ClickCard _ => st
  end.
Proof.
  destruct ev as [| | k]; [reflexivity | reflexivity |].
  unfold dispatch. destruct (carouselItems _ !! k); reflexivity.
Qed.

Lemma dispatch_inRange props st ev :
  inRange (featuredAgents props) st ->
  inRange (featuredAgents props) (fst (dispatch props st ev)).
Proof.
  intros Hr. rewrite dispatch_state. destruct ev.
  - apply handlePrevSlide_inRange, Hr.
  - apply handleNextSlide_inRange, Hr.
  - exact Hr.
Qed.

Lemma run_cons props st ev evs :
  run props st (ev :: evs) =
  (fst (run props (fst (dispatch props st ev)) evs),
   snd (dispatch props st ev) ++ snd (run props (fst (dispatch props st ev)) evs)).
Proof.
  simpl. destruct (dispatch props st ev) as [st1 out1]. simpl.
  destruct (run props st1 evs) as [st2 out2]. reflexivity.
Qed.

Lemma run_inRange props evs : forall st,
  inRange (featuredAgents props) st ->
  inRange (featuredAgents props) (fst (run props st evs)).
Proof.
  induction evs as [| ev evs IH]; intros st Hr.
  - exact Hr.
  - rewrite run_cons. simpl. apply IH, dispatch_inRange, Hr.
Qed.

(** A run of [k] clicks on the next button is [k] calls of the handler. *)
Lemma run_ClickNext props (k : nat) : forall st,
  run props st (replicate k ClickNext)
  = (Nat.iter k (handleNextSlide (featuredAgents props)) st, []).
Proof.
  induction k as [| k IH]; intros st.
  - reflexivity.
  - rewrite Nat.iter_succ_r. simpl replicate. rewrite run_cons, IH. reflexivity.
Qed.

Lemma dispatch_ClickCard props st (k : nat) agent :
  featuredAgents props !! k = Some agent ->
  dispatch props st (ClickCard k) = (st, handleCardClick (creator agent) (slug agent)).
Proof.
  intros Hk. unfold dispatch, FeaturedSection; simpl.
  rewrite list_lookup_imap, Hk. reflexivity.
Qed.

Lemma dispatch_ClickCard_none props st (k : nat) :
  featuredAgents props !! k = None ->
  dispatch props st (ClickCard k) = (st, []).
Proof.
  intros Hk. unfold dispatch, FeaturedSection; simpl.
  rewrite list_lookup_imap, Hk. reflexivity.
Qed.

Lemma indicator_classes_differ : indicatorActive <> indicatorIdle.
Proof. discriminate. Qed.

(** ** Scenarios of the specification *)

Example scenario_advance_wraps :
  map (fun evs => currentSlide (fst (run Sample.Default initialState evs)))
      [[ClickNext]; [ClickNext; ClickNext]; [ClickNext; ClickNext; ClickNext]]
  = [1; 2; 0].
Proof. reflexivity. Qed.

Example scenario_retreat_wraps :
  currentSlide (fst (run Sample.Default initialState [ClickPrev])) = 2.
Proof. reflexivity. Qed.

Example scenario_select_WordCraft :
  snd (dispatch Sample.Default initialState (ClickCard 1))
  = [RouterPush "/store/agent/WordCraft AI/content-writer-ai"].
Proof. reflexivity. Qed.

(** ** The claims on the carousel *)

(** C1 (the code departs from the claim on an empty collection). With no
    featured agent the advance handler is not a no-op: from the index 0 of
    the mount it stores 1, and from any index it stores a different one. *)
Theorem handleNextSlide_empty_collection :
  handleNextSlide [] initialState = {| currentSlide := 1 |} /\
  dispatch Sample.NoAgents initialState ClickNext = ({| currentSlide := 1 |}, []) /\
  (forall st, handleNextSlide [] st <> st).
Proof.
  split; [reflexivity | split; [reflexivity |]].
  intros st H. apply (f_equal currentSlide) in H.
  rewrite handleNextSlide_cases in H. simpl in H.
  destruct (Z.eqb_spec (currentSlide st) (Z.of_nat 0 - 1)); lia.
Qed.

(** C2 (the code departs from the claim on an empty collection). With no
    featured agent the retreat handler is not a no-op: from the index 0 of
    the mount it stores -1, and from any index it stores a different one. *)
Theorem handlePrevSlide_empty_collection :
  handlePrevSlide [] initialState = {| currentSlide := -1 |} /\
  dispatch Sample.NoAgents initialState ClickPrev = ({| currentSlide := -1 |}, []) /\
  (forall st, handlePrevSlide [] st <> st).
Proof.
  split; [reflexivity | split; [reflexivity |]].
  intros st H. apply (f_equal currentSlide) in H.
  rewrite handlePrevSlide_cases in H. simpl in H.
  destruct (Z.eqb_spec (currentSlide st) 0); lia.
Qed.

(** C3. For a collection of N > 0 agents the index satisfies
    [0 <= index < N] at mount (where it is 0), both navigation handlers keep
    it so from any state that satisfies it, a click changes the index only
    through one of the two handlers, and so the bound holds after every
    sequence of clicks. *)
Theorem currentSlide_invariant props (evs : list event) :
  (0 < length (featuredAgents props))%nat ->
  currentSlide initialState = 0 /\
  inRange (featuredAgents props) initialState /\
  (forall st, inRange (featuredAgents props) st ->
     inRange (featuredAgents props) (handleNextSlide (featuredAgents props) st) /\
     inRange (featuredAgents props) (handlePrevSlide (featuredAgents props) st)) /\
  (forall st ev,
     fst (dispatch props st ev) =
     match ev with
     | ClickPrev => handlePrevSlide (featuredAgents props) st
     | ClickNext => handleNextSlide (featuredAgents props) st
     | ClickCard _ => st
     end) /\
  inRange (featuredAgents props) (fst (run props initialState evs)).
Proof.
  intros HN.
  assert (H0 : inRange (featuredAgents props) initialState)
    by (unfold inRange; simpl; lia).
  split; [reflexivity | split; [exact H0 | split; [| split]]].
  - intros st Hr. split.
    + apply handleNextSlide_inRange, Hr.
    + apply handlePrevSlide_inRange, Hr.
  - intros st ev. apply dispatch_state.
  - apply run_inRange, H0.
Qed.

(** C3 on the [Default] story, after four clicks. *)
Lemma currentSlide_invariant_witness :
  (0 < length (featuredAgents Sample.Default))%nat /\
  inRange (featuredAgents Sample.Default)
          (fst (run Sample.Default initialState [ClickNext; ClickPrev; ClickPrev; ClickCard 0])).
Proof.
  split; [simpl; lia |].
  apply (currentSlide_invariant Sample.Default [ClickNext; ClickPrev; ClickPrev; ClickCard 0]).
  simpl; lia.
Defined.

(** C4. For N >= 1 and an index i with [0 <= i < N], an advance followed by
    a retreat returns to i: as two calls of the handlers, and as a click on
    the next button followed by one on the previous button. *)
Theorem retreat_after_advance props st :
  (1 <= length (featuredAgents props))%nat ->
  inRange (featuredAgents props) st ->
  handlePrevSlide (featuredAgents props) (handleNextSlide (featuredAgents props) st) = st /\
  run props st [ClickNext; ClickPrev] = (st, []).
Proof.
  unfold inRange; intros HN Hr.
  assert (Hback : handlePrevSlide (featuredAgents props)
                    (handleNextSlide (featuredAgents props) st) = st).
  { apply State_eq. rewrite handlePrevSlide_cases, handleNextSlide_cases.
    destruct (Z.eqb_spec (currentSlide st)
                (Z.of_nat (length (featuredAgents props)) - 1)) as [He | Hne].
    - simpl. lia.
    - destruct (Z.eqb_spec (currentSlide st + 1) 0); lia. }
  split; [exact Hback |].
  change (run props st [ClickNext; ClickPrev])
    with (handlePrevSlide (featuredAgents props)
            (handleNextSlide (featuredAgents props) st), @nil effect).
  rewrite Hback. reflexivity.
Qed.

(** C4 on the [Default] story, from the last slide. *)
Lemma retreat_after_advance_witness :
  run Sample.Default {| currentSlide := 2 |} [ClickNext; ClickPrev]
  = ({| currentSlide := 2 |}, []).
Proof.
  apply (retreat_after_advance Sample.Default {| currentSlide := 2 |}).
  - simpl; lia.
  - unfold inRange; simpl; lia.
Defined.

(** C5. For N >= 1 and an index i with [0 <= i < N], N advances in a row
    return to i: as N calls of the handler, and as N clicks on the next
    button (which have no other effect). *)
Theorem advance_N_times props st :
  (1 <= length (featuredAgents props))%nat ->
  inRange (featuredAgents props) st ->
  Nat.iter (length (featuredAgents props)) (handleNextSlide (featuredAgents props)) st = st /\
  run props st (replicate (length (featuredAgents props)) ClickNext) = (st, []).
Proof.
  intros HN Hr.
  assert (Hiter : Nat.iter (length (featuredAgents props))
                    (handleNextSlide (featuredAgents props)) st = st).
  { apply State_eq.
    destruct (handleNextSlide_iter (featuredAgents props)
                (length (featuredAgents props)) st Hr) as [_ ->].
    replace (currentSlide st + Z.of_nat (length (featuredAgents props)))
      with (currentSlide st + 1 * Z.of_nat (length (featuredAgents props))) by lia.
    rewrite Z_mod_plus_full. apply Z.mod_small, Hr. }
  split; [exact Hiter |].
  rewrite run_ClickNext, Hiter. reflexivity.
Qed.

(** C5 on the [Default] story, from the middle slide. *)
Lemma advance_N_times_witness :
  run Sample.Default {| currentSlide := 1 |} (replicate 3 ClickNext)
  = ({| currentSlide := 1 |}, []).
Proof.
  apply (advance_N_times Sample.Default {| currentSlide := 1 |}).
  - simpl; lia.
  - unfold inRange; simpl; lia.
Defined.

(** C6. The indicator strip has exactly one mark per agent, in the order of
    the collection: it is the list of the marks of the positions 0, ..., N-1.
    The mark at position i has the elongated shape exactly when i is the
    current index, and the round one exactly when it is not; there is no
    mark at a position from N on, and an empty collection renders no mark. *)
Theorem indicator_strip props st :
  indicators (FeaturedSection props st)
  = (fun i : nat => if currentSlide st =? Z.of_nat i then indicatorActive else indicatorIdle)
    <$> seq 0 (length (featuredAgents props)) /\
  length (indicators (FeaturedSection props st)) = length (featuredAgents props) /\
  (forall i : nat, (i < length (featuredAgents props))%nat ->
     (indicators (FeaturedSection props st) !! i = Some indicatorActive
        <-> currentSlide st = Z.of_nat i) /\
     (indicators (FeaturedSection props st) !! i = Some indicatorIdle
        <-> currentSlide st <> Z.of_nat i)) /\
  (forall i : nat, (length (featuredAgents props) <= i)%nat ->
     indicators (FeaturedSection props st) !! i = None) /\
  (featuredAgents props = [] -> indicators (FeaturedSection props st) = []).
Proof.
  unfold FeaturedSection; simpl.
  split; [apply imap_seq_0 | split; [apply length_imap | split; [| split]]].
  - intros i Hi. rewrite list_lookup_imap.
    destruct (lookup_lt_is_Some_2 (featuredAgents props) i Hi) as [agent ->]. simpl.
    destruct (Z.eqb_spec (currentSlide st) (Z.of_nat i)) as [He | Hne]; split; split;
      intros H; try reflexivity; try assumption; try contradiction;
      apply (inj Some) in H; exfalso;
      first [exact (indicator_classes_differ H)
            | exact (indicator_classes_differ (eq_sym H))].
  - intros i Hi. rewrite list_lookup_imap, (lookup_ge_None_2 _ _ Hi). reflexivity.
  - intros ->. reflexivity.
Qed.

(** C7. Selecting the card of an agent with creator c and slug s calls
    [router.push] once, with the path ["/store/agent/" ++ c ++ "/" ++ s],
    does nothing else and leaves the index alone; this is what the handler
    does for every c and s. *)
Theorem card_click_pushes_agent_path props st (k : nat) agent :
  featuredAgents props !! k = Some agent ->
  dispatch props st (ClickCard k)
  = (st, [RouterPush ("/store/agent/" +:+ creator agent +:+ "/" +:+ slug agent)]) /\
  (forall c s, handleCardClick c s = [RouterPush ("/store/agent/" +:+ c +:+ "/" +:+ s)]).
Proof.
  intros Hk. split; [| reflexivity].
  rewrite (dispatch_ClickCard _ _ _ _ Hk). reflexivity.
Qed.

(** C7 on the second card of the [Default] story. *)
Lemma card_click_pushes_agent_path_witness :
  dispatch Sample.Default initialState (ClickCard 1)
  = (initialState, [RouterPush "/store/agent/WordCraft AI/content-writer-ai"]).
Proof.
  apply (card_click_pushes_agent_path Sample.Default initialState 1 Sample.contentWriter).
  reflexivity.
Defined.

(** ** Clicks never reach anything but the router *)

Lemma dispatch_effects props st ev e :
  e ∈ snd (dispatch props st ev) -> exists href, e = RouterPush href.
Proof.
  destruct ev as [| | k]; [simpl; intros H; inversion H ..|].
  destruct (featuredAgents props !! k) as [agent |] eqn:Hk.
  - rewrite (dispatch_ClickCard _ _ _ _ Hk). unfold handleCardClick; simpl.
    intros H. apply list_elem_of_singleton in H. eauto.
  - rewrite (dispatch_ClickCard_none _ _ _ Hk). simpl. intros H; inversion H.
Qed.

Lemma run_effects props evs : forall st e,
  e ∈ snd (run props st evs) -> exists href, e = RouterPush href.
Proof.
  induction evs as [| ev evs IH]; intros st e.
  - simpl. intros H; inversion H.
  - rewrite run_cons. simpl. intros H. apply elem_of_app in H as [H | H].
    + eapply dispatch_effects, H.
    + eapply IH, H.
Qed.

(** ** The claims on the page wiring *)

(** C10. The page hands its own [handleCardClick] to the featured section
    as [onCardClick], but the props the component is mounted with do not
    depend on that callback; a click on a rendered card calls [router.push]
    with the path built from the agent's creator and slug; and whatever the
    clicks, every effect is a [router.push], so the page's handler (a
    [console.log]) is never run through this component. *)
Theorem featured_section_ignores_onCardClick
  (props : Page.PageProps FeaturedAgent) (onCardClick : string -> list effect)
  (st : State) (evs : list event) :
  Page.attr_onCardClick (Page.Page props) = Page.handleCardClick /\
  Page.mount (Page.Page props)
  = Page.mount {| Page.attr_featuredAgents := Page.featuredAgents props;
                  Page.attr_onCardClick := onCardClick |} /\
  (forall (k : nat) agent,
     Page.featuredAgents props !! k = Some agent ->
     dispatch (Page.mount (Page.Page props)) st (ClickCard k)
     = (st, [RouterPush ("/store/agent/" +:+ creator agent +:+ "/" +:+ slug agent)])) /\
  (forall e, e ∈ snd (run (Page.mount (Page.Page props)) st evs) ->
     exists href, e = RouterPush href) /\
  (forall agentName e,
     e ∈ Page.handleCardClick agentName ->
     e ∉ snd (run (Page.mount (Page.Page props)) st evs)).
Proof.
  split; [reflexivity | split; [reflexivity | split; [| split]]].
  - intros k agent Hk.
    rewrite (dispatch_ClickCard (Page.mount (Page.Page props)) st k agent Hk).
    reflexivity.
  - intros e. apply run_effects.
  - intros agentName e He Hrun.
    apply list_elem_of_singleton in He.
    apply run_effects in Hrun as [href Hpush]. congruence.
Qed.

(** ** What [toFixed(1)] prints *)

Section Formatting.
Import Ecma.

Lemma append_nil (b : string) : "" +:+ b = b.
Proof. reflexivity. Qed.

Lemma append_cons (x : Ascii.ascii) (a b : string) : String x a +:+ b = String x (a +:+ b).
Proof. reflexivity. Qed.

Lemma append_assoc (a b c : string) : (a +:+ b) +:+ c = a +:+ (b +:+ c).
Proof.
  induction a as [| x a IH]; [reflexivity |].
  rewrite !append_cons, IH. reflexivity.
Qed.

Lemma length_append (a b : string) :
  String.length (a +:+ b) = (String.length a + String.length b)%nat.
Proof.
  induction a as [| x a IH]; [reflexivity |].
  rewrite append_cons. simpl. rewrite IH. reflexivity.
Qed.

Lemma substring_all (a : string) : String.substring 0 (String.length a) a = a.
Proof. induction a as [| x a IH]; simpl; [reflexivity | rewrite IH; reflexivity]. Qed.

Lemma substring_prefix (a b : string) :
  String.substring 0 (String.length a) (a +:+ b) = a.
Proof.
  induction a as [| x a IH].
  - rewrite append_nil. destruct b; reflexivity.
  - rewrite append_cons. simpl. rewrite IH. reflexivity.
Qed.

Lemma substring_suffix (a b : string) :
  String.substring (String.length a) (String.length b) (a +:+ b) = b.
Proof.
  induction a as [| x a IH].
  - apply substring_all.
  - rewrite append_cons. simpl. exact IH.
Qed.

Lemma pretty_N_go_append (x : N) : forall s, pretty_N_go x s = pretty_N_go x "" +:+ s.
Proof.
  induction (N.lt_wf_0 x) as [x _ IH]; intros s.
  destruct (N.eq_dec x 0%N) as [-> | Hx].
  - rewrite !pretty_N_go_0. reflexivity.
  - rewrite !(pretty_N_go_step x) by lia.
    assert (Hlt : (x `div` 10 < x)%N) by (apply N.div_lt; lia).
    rewrite (IH _ Hlt (String (pretty_N_char (x `mod` 10)) s)).
    rewrite (IH _ Hlt (String (pretty_N_char (x `mod` 10)) "")).
    rewrite append_assoc. reflexivity.
Qed.

(** The last digit of a positive number, and the digits before it. *)
Lemma digits_step (n : Z) :
  0 < n ->
  digits n = (if n / 10 =? 0 then "" else digits (n / 10))
             +:+ String (pretty_N_char (Z.to_N (n mod 10))) "".
Proof.
  intros Hn. unfold digits, pretty, pretty_N.
  destruct (decide (Z.to_N n = 0%N)) as [H0 | _]; [lia |].
  rewrite pretty_N_go_step by lia.
  rewrite pretty_N_go_append.
  replace (Z.to_N n `div` 10)%N with (Z.to_N (n / 10))
    by (rewrite Z2N.inj_div by lia; reflexivity).
  replace (Z.to_N n `mod` 10)%N with (Z.to_N (n mod 10))
    by (rewrite Z2N.inj_mod by lia; reflexivity).
  destruct (Z.eqb_spec (n / 10) 0) as [-> | Hq].
  - reflexivity.
  - destruct (decide (Z.to_N (n / 10) = 0%N)) as [H0 | _]; [| reflexivity].
    assert (0 <= n / 10) by (apply Z.div_pos; lia). lia.
Qed.

Lemma digits_nonempty (n : Z) : (1 <= String.length (digits n))%nat.
Proof.
  destruct (Z_lt_le_dec 0 n) as [Hn | Hn].
  - rewrite (digits_step n Hn), length_append. simpl. lia.
  - unfold digits. replace (Z.to_N n) with 0%N by lia. simpl. lia.
Qed.

(** With one fraction digit, the text is the digits of [n / 10], a point,
    and the digit [n mod 10]. *)
Lemma fixedPoint_1 (n : Z) :
  0 <= n ->
  fixedPoint 1 n = digits (n / 10) +:+ "." +:+ String (pretty_N_char (Z.to_N (n mod 10))) "".
Proof.
  intros Hn. unfold fixedPoint.
  destruct (Z.eqb_spec n 0) as [-> | Hn0]; [reflexivity |].
  rewrite (digits_step n) by lia.
  set (c := String (pretty_N_char (Z.to_N (n mod 10))) "").
  destruct (Z.eqb_spec (n / 10) 0) as [Hq | Hq].
  - rewrite Hq. reflexivity.
  - simpl Nat.eqb. cbv iota.
    assert (Hlen : String.length (digits (n / 10) +:+ c)
                   = (String.length (digits (n / 10)) + 1)%nat)
      by (rewrite length_append; reflexivity).
    pose proof (digits_nonempty (n / 10)) as Hd.
    rewrite Hlen.
    destruct (Nat.leb_spec (String.length (digits (n / 10)) + 1) 1) as [Hle | _]; [lia |].
    replace (String.length (digits (n / 10)) + 1 - 1)%nat
      with (String.length (digits (n / 10))) by lia.
    rewrite substring_prefix.
    change 1%nat with (String.length c) at 1.
    rewrite substring_suffix. reflexivity.
Qed.

(** [nearest m e scale] is the integer nearest to [m * 2^e * scale], and the
    larger of the two when the value is half way: with the value written as
    the fraction [X / D], [X - D/2 < D * n <= X + D/2]. *)
Lemma nearest_spec (m e scale : Z) :
  let D := 2 ^ Z.max (- e) 0 in
  let X := m * 2 ^ Z.max e 0 * scale in
  let n := nearest m e scale in
  2 * X - D < 2 * D * n <= 2 * X + D.
Proof.
  unfold nearest. destruct (Z.leb_spec 0 e) as [He | He].
  - rewrite (Z.max_r (- e) 0), (Z.max_l e 0) by lia. simpl. lia.
  - rewrite (Z.max_l (- e) 0), (Z.max_r e 0) by lia.
    rewrite Z.pow_0_r, Z.mul_1_r.
    replace (1 - e) with (Z.succ (- e)) by lia.
    rewrite Z.pow_succ_r by lia.
    assert (HD : 0 < 2 ^ (- e)) by (apply Z.pow_pos_nonneg; lia).
    set (D := 2 ^ (- e)) in *.
    pose proof (Z.div_mod (2 * m * scale + D) (2 * D) ltac:(lia)) as Hdm.
    pose proof (Z.mod_pos_bound (2 * m * scale + D) (2 * D) ltac:(lia)) as Hb.
    simpl. lia.
Qed.

Lemma nearest_nonneg (m e scale : Z) : 0 < m -> 0 < scale -> 0 <= nearest m e scale.
Proof.
  intros Hm Hs. pose proof (nearest_spec m e scale) as Hn. simpl in Hn.
  assert (HD : 0 < 2 ^ Z.max (- e) 0) by (apply Z.pow_pos_nonneg; lia).
  assert (HX : 0 < m * 2 ^ Z.max e 0)
    by (apply Z.mul_pos_pos; [lia | apply Z.pow_pos_nonneg; lia]).
  nia.
Qed.

(** For a finite rating below [10^21] in magnitude, [toFixed(1)] prints the
    sign, the integer digits, a point and exactly one fraction digit, and
    these are the digits of the tenth nearest to the rating. *)
Lemma toFixed_1_finite (r : number) (sign : bool) (m : positive) (e : Z) :
  Prim2SF r = S754_finite sign m e ->
  compare_scaled (10 ^ 21) 0 (Z.pos m) e = Gt ->
  let n := nearest (Z.pos m) e 10 in
  Number_toFixed r 1
  = (if sign then "-" else "") +:+ digits (n / 10) +:+ "."
    +:+ String (pretty_N_char (Z.to_N (n mod 10))) "".
Proof.
  intros Hr Hsmall n. unfold Number_toFixed. rewrite Hr, Hsmall.
  change (10 ^ Z.of_nat 1) with 10. fold n.
  rewrite fixedPoint_1; [reflexivity |].
  apply nearest_nonneg; lia.
Qed.

End Formatting.

(** ** Scenarios of the specification, on the row *)

Section RowScenarios.
Import Ecma AgentTableRow.
#[local] Set Warnings "-inexact-float".
Local Open Scope float_scope.

Example scenario_rating_4_7 :
  reviewsColumn (Some 4.7) = Div "text-right" [ratingWithStar "4.7"].
Proof. vm_compute. reflexivity. Qed.

Example scenario_rating_undefined :
  reviewsColumn None = Div "text-right" [Span "text-sm text-neutral-600" [Text "—"]].
Proof. reflexivity. Qed.

Example scenario_runs_75000 :
  runsColumn (H := enUS) (Some 75000)
  = Div "text-sm text-neutral-600 text-right" [Text "75,000"].
Proof. vm_compute. reflexivity. Qed.

(** Ties go up, and it is the double that is rounded, not its decimal
    spelling: 4.75 is a double, 4.45 is the double just above it, 1.0005 the
    double just below it. *)
Example toFixed_examples :
  (Number_toFixed 4.75 1, Number_toFixed 4.45 1, Number_toFixed 1.0005 3,
   Number_toFixed (-2.5) 0, Number_toFixed 0.04 1, Number_toFixed 3.8 1)
  = ("4.8", "4.5", "1.000", "-3", "0.0", "3.8").
Proof. vm_compute. reflexivity. Qed.

(** From [10^21] on, and for a value that is not finite, [toFixed] prints as
    [toString] does. *)
Example toFixed_large :
  (Number_toFixed 1e21 1, Number_toFixed 1180591620717411303424 1,
   Number_toFixed 123456789012345680000 1, Number_toFixed infinity 1)
  = ("1e+21", "1.1805916207174113e+21", "123456789012345683968.0", "Infinity").
Proof. vm_compute. reflexivity. Qed.

Example toLocaleString_enUS_examples :
  map toLocaleString_enUS [0; 999; 1000; 50000; 1234567.891; -1234.5; 0.0005]
  = ["0"; "999"; "1,000"; "50,000"; "1,234,567.891"; "-1,234.5"; "0.001"].
Proof. vm_compute. reflexivity. Qed.

(** It is the shortest decimal that is rounded and printed: 1.0005 is the
    double just below that decimal and still prints as 1.001, and the
    doubles 2^63 and 1e23 print with the zeros of their shortest decimals. *)
Example toLocaleString_enUS_shortest_decimal :
  map toLocaleString_enUS [1.0005; 9223372036854775808; 1e23]
  = ["1.001"; "9,223,372,036,854,776,000"; "100,000,000,000,000,000,000,000"].
Proof. vm_compute. reflexivity. Qed.

Example toLocaleString_enUS_arab_examples :
  map (toLocaleString (Locale := enUS_arab)) [0; 75000; 1234.5]
  = ["٠"; "٧٥٬٠٠٠"; "١٬٢٣٤٫٥"].
Proof. vm_compute. reflexivity. Qed.

End RowScenarios.

(** ** The claims on the table row *)

Section Row.
Import Ecma AgentTableRow.
Context `{Locale} {StatusType : Type}.
Implicit Type props : AgentTableRowProps StatusType.

Lemma runsCell_present props r :
  runs props = Some r ->
  runsCell (AgentTableRow props)
  = Div "text-sm text-neutral-600 text-right" [Text (toLocaleString r)].
Proof. intros Hr. unfold AgentTableRow, runsColumn; simpl. rewrite Hr. reflexivity. Qed.

Lemma runsCell_absent props :
  runs props = None ->
  runsCell (AgentTableRow props) = Div "text-sm text-neutral-600 text-right" [Text "—"].
Proof. intros Hr. unfold AgentTableRow, runsColumn; simpl. rewrite Hr. reflexivity. Qed.

Lemma reviewsCell_absent props :
  rating props = None ->
  reviewsCell (AgentTableRow props) = Div "text-right" [ratingDash].
Proof. intros Hr. unfold AgentTableRow, reviewsColumn; simpl. rewrite Hr. reflexivity. Qed.

Lemma reviewsCell_truthy props r :
  rating props = Some r -> ToBoolean r = true ->
  reviewsCell (AgentTableRow props)
  = Div "text-right" [ratingWithStar (Number_toFixed r 1)].
Proof.
  intros Hr Ht. unfold AgentTableRow, reviewsColumn; simpl. rewrite Hr, Ht. reflexivity.
Qed.

Lemma reviewsCell_falsy props r :
  rating props = Some r -> ToBoolean r = false ->
  reviewsCell (AgentTableRow props) = Div "text-right" [ratingDash].
Proof.
  intros Hr Ht. unfold AgentTableRow, reviewsColumn; simpl. rewrite Hr, Ht. reflexivity.
Qed.

(** C8 (as amended). A present run count is shown as the host's
    [toLocaleString] prints it, an absent one as the em dash. An absent
    rating is shown as the em dash. A present rating is shown as
    [rating.toFixed(1)] next to the filled star when it is truthy, and as
    the em dash when it is not (0, -0 or NaN). For a finite rating below
    [10^21] in magnitude that text is the sign, the integer digits, a point
    and exactly one fraction digit, and the number [n] of tenths it spells
    is the one nearest to the magnitude of the rating (the larger one on a
    tie). *)
Theorem metric_cells props :
  (forall r, runs props = Some r ->
     runsCell (AgentTableRow props)
     = Div "text-sm text-neutral-600 text-right" [Text (toLocaleString r)]) /\
  (runs props = None ->
     runsCell (AgentTableRow props)
     = Div "text-sm text-neutral-600 text-right" [Text "—"]) /\
  (rating props = None ->
     reviewsCell (AgentTableRow props)
     = Div "text-right" [Span "text-sm text-neutral-600" [Text "—"]]) /\
  (forall r, rating props = Some r -> ToBoolean r = true ->
     reviewsCell (AgentTableRow props)
     = Div "text-right"
         [Div "flex items-center justify-end gap-1"
            [Span "text-sm font-medium text-neutral-800" [Text (Number_toFixed r 1)];
             IconStarFilled "h-4 w-4 text-neutral-800"]]) /\
  (forall r, rating props = Some r -> ToBoolean r = false ->
     reviewsCell (AgentTableRow props)
     = Div "text-right" [Span "text-sm text-neutral-600" [Text "—"]]) /\
  (forall r sign m e,
     Prim2SF r = S754_finite sign m e ->
     compare_scaled (10 ^ 21) 0 (Z.pos m) e = Gt ->
     exists n : Z,
       Number_toFixed r 1
       = (if sign then "-" else "") +:+ digits (n / 10) +:+ "."
         +:+ String (pretty_N_char (Z.to_N (n mod 10))) "" /\
       0 <= n /\
       2 * (Z.pos m * 2 ^ Z.max e 0 * 10) - 2 ^ Z.max (- e) 0
       < 2 * 2 ^ Z.max (- e) 0 * n
       <= 2 * (Z.pos m * 2 ^ Z.max e 0 * 10) + 2 ^ Z.max (- e) 0).
Proof.
  split; [exact (runsCell_present props) |].
  split; [exact (runsCell_absent props) |].
  split; [exact (reviewsCell_absent props) |].
  split; [exact (reviewsCell_truthy props) |].
  split; [exact (reviewsCell_falsy props) |].
  intros r sign m e Hr Hsmall. exists (nearest (Z.pos m) e 10).
  split; [exact (toFixed_1_finite r sign m e Hr Hsmall) |].
  split; [apply nearest_nonneg; lia | apply nearest_spec].
Qed.


End Row.

(** C8, as first stated, fails for a present rating in two ways. A rating of
    0 is present, and the row shows the dash, not ["0.0"] with a star. A
    rating of infinity is shown with a star, as ["Infinity"], which has no
    decimal place. *)
Lemma present_rating_not_always_one_decimal :
  (AgentTableRow.reviewsCell
     (AgentTableRow.AgentTableRow (H := Ecma.enUS) (Sample.row None (Some 0%float)))
   = AgentTableRow.Div "text-right" [AgentTableRow.ratingDash] /\
   AgentTableRow.reviewsCell
     (AgentTableRow.AgentTableRow (H := Ecma.enUS) (Sample.row None (Some 0%float)))
   <> AgentTableRow.Div "text-right"
        [AgentTableRow.ratingWithStar (Ecma.Number_toFixed 0%float 1)]) /\
  AgentTableRow.reviewsCell
    (AgentTableRow.AgentTableRow (H := Ecma.enUS) (Sample.row None (Some infinity)))
  = AgentTableRow.Div "text-right" [AgentTableRow.ratingWithStar "Infinity"].
Proof. split; [split; [reflexivity | discriminate] | reflexivity]. Qed.



(** * Further properties of the components *)

Section MoreNavigation.
Import Clicks.
Variable props : FeaturedSectionProps.
Abbreviation agents := (featuredAgents props).
Abbreviation N := (Z.of_nat (length (featuredAgents props))).

(** [k] retreats move an index in range to [(index - k) mod N]. *)
Lemma handlePrevSlide_iter (k : nat) st :
  inRange agents st ->
  inRange agents (Nat.iter k (handlePrevSlide agents) st) /\
  currentSlide (Nat.iter k (handlePrevSlide agents) st)
  = (currentSlide st - Z.of_nat k) mod N.
Proof.
  intros Hr. induction k as [| k [IHr IHv]].
  - split; [exact Hr |]. simpl. rewrite Z.sub_0_r.
    symmetry; apply Z.mod_small; exact Hr.
  - rewrite Nat.iter_succ. split; [apply handlePrevSlide_inRange, IHr |].
    rewrite (handlePrevSlide_mod _ _ IHr), IHv.
    rewrite <- Zplus_mod_idemp_l, Zminus_mod_idemp_l, Zplus_mod_idemp_l.
    replace (currentSlide st - Z.of_nat k - 1 + N)
      with (currentSlide st - Z.of_nat (S k) + 1 * N) by lia.
    apply Z_mod_plus_full.
Qed.

Lemma run_ClickPrev (k : nat) : forall st,
  run props st (replicate k ClickPrev)
  = (Nat.iter k (handlePrevSlide agents) st, []).
Proof.
  induction k as [| k IH]; intros st.
  - reflexivity.
  - rewrite Nat.iter_succ_r. simpl replicate. rewrite run_cons, IH. reflexivity.
Qed.

(** X1. On a collection of N >= 1 agents and an index i with
    [0 <= i < N], a click on the next button stores [(i + 1) mod N] and a
    click on the previous button stores [(i - 1 + N) mod N]; neither has
    another effect. *)
Theorem arrows_step_modulo st :
  inRange agents st ->
  dispatch props st ClickNext
  = ({| currentSlide := (currentSlide st + 1) mod N |}, []) /\
  dispatch props st ClickPrev
  = ({| currentSlide := (currentSlide st - 1 + N) mod N |}, []).
Proof.
  intros Hr. split.
  - rewrite <- (handleNextSlide_mod _ _ Hr). reflexivity.
  - rewrite <- (handlePrevSlide_mod _ _ Hr). reflexivity.
Qed.

(** X2. For an index in range, a retreat followed by an advance returns to
    it: as two calls of the handlers, and as a click on the previous button
    followed by one on the next button. *)
Theorem advance_after_retreat st :
  inRange agents st ->
  handleNextSlide agents (handlePrevSlide agents st) = st /\
  run props st [ClickPrev; ClickNext] = (st, []).
Proof.
  unfold inRange; intros Hr.
  assert (Hback : handleNextSlide agents (handlePrevSlide agents st) = st).
  { apply State_eq. rewrite handleNextSlide_cases, handlePrevSlide_cases.
    destruct (Z.eqb_spec (currentSlide st) 0) as [He | Hne].
    - rewrite Z.eqb_refl. lia.
    - destruct (Z.eqb_spec (currentSlide st - 1) (N - 1)); lia. }
  split; [exact Hback |].
  change (run props st [ClickPrev; ClickNext])
    with (handleNextSlide agents (handlePrevSlide agents st), @nil effect).
  rewrite Hback. reflexivity.
Qed.

(** X3. For an index i in range, k clicks on the previous button lead to
    [(i - k) mod N] and have no other effect; N of them return to i. *)
Theorem retreat_k_times st (k : nat) :
  inRange agents st ->
  run props st (replicate k ClickPrev)
  = ({| currentSlide := (currentSlide st - Z.of_nat k) mod N |}, []) /\
  run props st (replicate (length agents) ClickPrev) = (st, []).
Proof.
  intros Hr. rewrite !run_ClickPrev. split; f_equal; apply State_eq; simpl.
  - apply (handlePrevSlide_iter k st Hr).
  - destruct (handlePrevSlide_iter (length agents) st Hr) as [_ ->].
    replace (currentSlide st - N) with (currentSlide st + (-1) * N) by lia.
    rewrite Z_mod_plus_full. apply Z.mod_small, Hr.
Qed.

(** X4. For an index in range, one retreat is N - 1 advances, and one
    advance is N - 1 retreats. *)
Theorem retreat_is_advances_around st :
  inRange agents st ->
  handlePrevSlide agents st = Nat.iter (length agents - 1) (handleNextSlide agents) st /\
  handleNextSlide agents st = Nat.iter (length agents - 1) (handlePrevSlide agents) st.
Proof.
  intros Hr. pose proof Hr as Hr'. unfold inRange in Hr'.
  assert (HN : Z.of_nat (length agents - 1) = N - 1) by lia.
  split; apply State_eq.
  - destruct (handleNextSlide_iter agents (length agents - 1) st Hr) as [_ ->].
    rewrite (handlePrevSlide_mod _ _ Hr), HN. f_equal; lia.
  - destruct (handlePrevSlide_iter (length agents - 1) st Hr) as [_ ->].
    rewrite (handleNextSlide_mod _ _ Hr), HN.
    replace (currentSlide st - (N - 1)) with (currentSlide st + 1 + (-1) * N) by lia.
    rewrite Z_mod_plus_full. reflexivity.
Qed.

(** X5. Every slide can be reached with the next button: from an index i in
    range, [(j - i) mod N] clicks lead to any j in range; from the mount,
    j clicks lead to slide j. *)
Theorem every_slide_reachable st (j : nat) :
  inRange agents st ->
  (j < length agents)%nat ->
  currentSlide
    (fst (run props st
            (replicate (Z.to_nat ((Z.of_nat j - currentSlide st) mod N)) ClickNext)))
  = Z.of_nat j /\
  currentSlide (fst (run props initialState (replicate j ClickNext))) = Z.of_nat j.
Proof.
  intros Hr Hj. pose proof Hr as Hr'. unfold inRange in Hr'.
  assert (H0 : inRange agents initialState) by (unfold inRange; simpl; lia).
  rewrite !run_ClickNext. simpl fst. split.
  - destruct (handleNextSlide_iter agents
                (Z.to_nat ((Z.of_nat j - currentSlide st) mod N)) st Hr) as [_ ->].
    rewrite Z2Nat.id by (apply Z.mod_pos_bound; lia).
    rewrite Zplus_mod_idemp_r.
    replace (currentSlide st + (Z.of_nat j - currentSlide st)) with (Z.of_nat j) by lia.
    apply Z.mod_small; lia.
  - destruct (handleNextSlide_iter agents j initialState H0) as [_ ->].
    simpl. apply Z.mod_small; lia.
Qed.

(** The strip when the index names slide [i]: idle dots, the active bar at
    position [i], idle dots. *)
Lemma indicators_at st (i : nat) :
  currentSlide st = Z.of_nat i ->
  (i < length agents)%nat ->
  indicators (FeaturedSection props st)
  = replicate i indicatorIdle ++ indicatorActive
    :: replicate (length agents - S i) indicatorIdle.
Proof.
  intros Hi Hlt. apply list_eq; intros j.
  unfold FeaturedSection; simpl. rewrite list_lookup_imap, Hi.
  destruct (lt_eq_lt_dec j i) as [[Hji | ->] | Hij].
  - rewrite lookup_app_l by (rewrite length_replicate; lia).
    rewrite lookup_replicate_2 by lia.
    destruct (lookup_lt_is_Some_2 agents j ltac:(lia)) as [a ->]. simpl.
    destruct (Z.eqb_spec (Z.of_nat i) (Z.of_nat j)); [lia | reflexivity].
  - rewrite lookup_app_r by (rewrite length_replicate; lia).
    rewrite length_replicate, Nat.sub_diag. simpl.
    destruct (lookup_lt_is_Some_2 agents i Hlt) as [a ->]. simpl.
    rewrite Z.eqb_refl. reflexivity.
  - rewrite lookup_app_r by (rewrite length_replicate; lia).
    rewrite length_replicate.
    destruct (j - i)%nat as [| m] eqn:Hm; [lia |]. simpl.
    destruct (le_lt_dec (length agents) j) as [Hge | Hlt'].
    + rewrite (lookup_ge_None_2 agents j Hge). simpl.
      symmetry. apply lookup_replicate_None. lia.
    + destruct (lookup_lt_is_Some_2 agents j Hlt') as [a ->]. simpl.
      rewrite lookup_replicate_2 by lia.
      destruct (Z.eqb_spec (Z.of_nat i) (Z.of_nat j)); [lia | reflexivity].
Qed.

(** X6. On a collection of N > 0 agents, after any sequence of clicks from
    the mount the strip shows exactly one active bar among N marks, and it
    stands at the position the carousel is told to start at. *)
Theorem one_active_mark_at_startIndex (evs : list event) :
  (0 < length agents)%nat ->
  exists i : nat,
    (i < length agents)%nat /\
    startIndex (carouselOpts (FeaturedSection props (fst (run props initialState evs))))
    = Z.of_nat i /\
    indicators (FeaturedSection props (fst (run props initialState evs)))
    = replicate i indicatorIdle ++ indicatorActive
      :: replicate (length agents - S i) indicatorIdle.
Proof.
  intros HN.
  assert (Hr : inRange agents (fst (run props initialState evs))).
  { apply run_inRange. unfold inRange; simpl; lia. }
  unfold inRange in Hr.
  exists (Z.to_nat (currentSlide (fst (run props initialState evs)))).
  split; [lia |]. split.
  - simpl. lia.
  - apply indicators_at; lia.
Qed.

(** X7. On an empty collection, whatever the clicks: nothing is pushed to
    the router, no card and no mark is rendered, and the index moves by the
    number of clicks on the next button minus the number of clicks on the
    previous button. *)
Theorem empty_collection_runs (evs : list event) st :
  agents = [] ->
  run props st evs = ({| currentSlide := currentSlide st + netClicks evs |}, []) /\
  carouselItems (FeaturedSection props (fst (run props st evs))) = [] /\
  indicators (FeaturedSection props (fst (run props st evs))) = [].
Proof.
  intros Hnil.
  assert (Hrun : forall evs st,
             run props st evs = ({| currentSlide := currentSlide st + netClicks evs |}, [])).
  { clear evs st. induction evs as [| ev evs IH]; intros st.
    - simpl. f_equal. apply State_eq. simpl. lia.
    - rewrite run_cons, IH.
      destruct ev as [| | k].
      + simpl. f_equal. apply State_eq. simpl. rewrite Hnil. simpl.
        destruct (Z.eqb_spec (currentSlide st) 0); lia.
      + simpl. f_equal. apply State_eq. simpl. rewrite Hnil. simpl.
        destruct (Z.eqb_spec (currentSlide st) (Z.of_nat 0 - 1)); lia.
      + rewrite dispatch_ClickCard_none by (rewrite Hnil; reflexivity).
        reflexivity. }
  split; [apply Hrun |].
  unfold FeaturedSection; simpl. rewrite Hnil. split; reflexivity.
Qed.

(** X8. With a single agent both arrows leave the index where it is: after
    any sequence of clicks from the mount the index is 0 and the one mark
    is the active bar. *)
Theorem single_agent_stays (evs : list event) :
  length agents = 1%nat ->
  fst (run props initialState evs) = initialState /\
  indicators (FeaturedSection props (fst (run props initialState evs)))
  = [indicatorActive].
Proof.
  intros H1.
  assert (Hr : inRange agents (fst (run props initialState evs))).
  { apply run_inRange. unfold inRange; simpl; lia. }
  unfold inRange in Hr.
  assert (Hst : fst (run props initialState evs) = initialState)
    by (apply State_eq; simpl; lia).
  split; [exact Hst |]. rewrite Hst.
  rewrite (indicators_at initialState 0) by (simpl; lia).
  rewrite H1. reflexivity.
Qed.

(** X9. The effects of a sequence of clicks are the pushes of the clicked
    cards, in the order of the clicks: the arrows add nothing to them, and
    the slide shown when a card is clicked does not change where the click
    leads. *)
Theorem run_pushes_clicked_cards (evs : list event) st st' :
  snd (run props st evs) = cardPushes agents evs /\
  snd (run props st evs) = snd (run props st' evs).
Proof.
  assert (Hrun : forall evs st, snd (run props st evs) = cardPushes agents evs).
  { clear. induction evs as [| ev evs IH]; intros st; [reflexivity |].
    rewrite run_cons. simpl snd. rewrite IH.
    destruct ev as [| | k]; [reflexivity | reflexivity |].
    simpl cardPushes.
    destruct (agents !! k) as [agent |] eqn:Hk.
    - rewrite (dispatch_ClickCard _ _ _ _ Hk). reflexivity.
    - rewrite (dispatch_ClickCard_none _ _ _ Hk). reflexivity. }
  split; [apply Hrun | rewrite !Hrun; reflexivity].
Qed.

(** X12. An index at or beyond N is not brought back by the next button:
    k clicks lead to index + k. While the index names no slide, every mark
    of the strip is an idle dot. *)
Theorem beyond_last_slide_no_wrap st (k : nat) :
  N <= currentSlide st ->
  run props st (replicate k ClickNext)
  = ({| currentSlide := currentSlide st + Z.of_nat k |}, []) /\
  indicators (FeaturedSection props st) = replicate (length agents) indicatorIdle.
Proof.
  intros Hge. split.
  - rewrite run_ClickNext. f_equal. apply State_eq. simpl.
    induction k as [| k IH].
    + simpl. lia.
    + rewrite Nat.iter_succ, handleNextSlide_cases, IH.
      destruct (Z.eqb_spec (currentSlide st + Z.of_nat k) (N - 1)); lia.
  - apply list_eq; intros j. unfold FeaturedSection; simpl.
    rewrite list_lookup_imap.
    destruct (le_lt_dec (length agents) j) as [Hj | Hj].
    + rewrite (lookup_ge_None_2 agents j Hj). simpl.
      symmetry. apply lookup_replicate_None. lia.
    + destruct (lookup_lt_is_Some_2 agents j Hj) as [a ->]. simpl.
      rewrite lookup_replicate_2 by lia.
      destruct (Z.eqb_spec (currentSlide st) (Z.of_nat j)); [lia | reflexivity].
Qed.

(** X14. On a collection of N >= 1 agents the slide shown after a sequence
    of clicks depends only on where it started and on the clicks on the next
    button minus the clicks on the previous button, modulo N. *)
Theorem run_index_closed_form (evs : list event) st :
  inRange agents st ->
  currentSlide (fst (run props st evs)) = (currentSlide st + netClicks evs) mod N.
Proof.
  revert st. induction evs as [| ev evs IH]; intros st Hr.
  - simpl. rewrite Z.add_0_r. symmetry; apply Z.mod_small, Hr.
  - rewrite run_cons. simpl fst.
    rewrite (IH _ (dispatch_inRange props st ev Hr)), dispatch_state.
    destruct ev as [| | k]; simpl netClicks.
    + rewrite (handlePrevSlide_mod _ _ Hr), Zplus_mod_idemp_l.
      replace (currentSlide st - 1 + N + netClicks evs)
        with (currentSlide st + (-1 + netClicks evs) + 1 * N) by lia.
      apply Z_mod_plus_full.
    + rewrite (handleNextSlide_mod _ _ Hr), Zplus_mod_idemp_l.
      f_equal; lia.
    + reflexivity.
Qed.

End MoreNavigation.

(** ** Paths and ids *)

Section PathsAndIds.
Import Clicks.

Lemma append_same_length (a b c d : string) :
  String.length a = String.length b ->
  a +:+ c = b +:+ d -> a = b /\ c = d.
Proof.
  revert b. induction a as [| x a IH]; intros [| y b] Hlen Heq;
    try discriminate Hlen.
  - split; [reflexivity | exact Heq].
  - rewrite !append_cons in Heq. injection Heq as Hx Heq.
    injection Hlen as Hlen. destruct (IH b Hlen Heq) as [-> ->].
    rewrite Hx. split; reflexivity.
Qed.

Lemma append_cancel_r (a b c : string) : a +:+ c = b +:+ c -> a = b.
Proof.
  intros Heq.
  assert (Hlen : String.length a = String.length b).
  { apply (f_equal String.length) in Heq. rewrite !length_append in Heq. lia. }
  exact (proj1 (append_same_length a b c c Hlen Heq)).
Qed.

Lemma slashFree_split (c1 c2 s1 s2 : string) :
  slashFree c1 = true -> slashFree c2 = true ->
  c1 +:+ "/" +:+ s1 = c2 +:+ "/" +:+ s2 ->
  c1 = c2 /\ s1 = s2.
Proof.
  revert c2. induction c1 as [| x c1 IH]; intros [| y c2] H1 H2 Heq.
  - rewrite !append_nil in Heq. injection Heq as Heq. split; [reflexivity | exact Heq].
  - rewrite append_nil, append_cons in Heq. injection Heq as Hy _.
    simpl in H2. rewrite <- Hy in H2. discriminate H2.
  - rewrite append_nil, append_cons in Heq. injection Heq as Hx _.
    simpl in H1. rewrite Hx in H1. discriminate H1.
  - rewrite !append_cons in Heq. injection Heq as Hxy Heq.
    simpl in H1, H2.
    apply andb_prop in H1 as [_ H1]. apply andb_prop in H2 as [_ H2].
    destruct (IH c2 H1 H2 Heq) as [-> ->]. rewrite Hxy. split; reflexivity.
Qed.

(** X10. When no creator name holds a slash, the path pushed for a card
    tells the creator and the slug apart: two clicks that push the same
    path were on cards of the same creator and the same slug. *)
Theorem pushed_path_determines_agent (c1 s1 c2 s2 : string) :
  slashFree c1 = true -> slashFree c2 = true ->
  handleCardClick c1 s1 = handleCardClick c2 s2 ->
  c1 = c2 /\ s1 = s2.
Proof.
  intros H1 H2 Heq. unfold handleCardClick in Heq.
  apply (f_equal (fun out => match out with
                              | [RouterPush href] => href
                              | _ => EmptyString
                              end)) in Heq.
  cbv beta iota in Heq.
  apply (inj (String.app "/store/agent/")) in Heq.
  exact (slashFree_split c1 c2 s1 s2 H1 H2 Heq).
Qed.

(** X11. Rows with different ids have different checkbox ids. *)
Theorem checkboxId_distinct `{Ecma.Locale} {StatusType : Type}
  (props1 props2 : AgentTableRow.AgentTableRowProps StatusType) :
  AgentTableRow.id props1 <> AgentTableRow.id props2 ->
  AgentTableRow.checkboxId (AgentTableRow.AgentTableRow props1)
  <> AgentTableRow.checkboxId (AgentTableRow.AgentTableRow props2).
Proof.
  intros Hne Heq. apply Hne. unfold AgentTableRow.AgentTableRow in Heq. simpl in Heq.
  apply (inj (String.app "agent-")) in Heq.
  exact (append_cancel_r _ _ _ Heq).
Qed.

End PathsAndIds.

(** The slash matters: a creator name with a slash gives the path of another
    creator and slug. *)
Example path_with_slash_in_creator :
  handleCardClick "a/b" "c" = handleCardClick "a" "b/c".
Proof. reflexivity. Qed.

(** ** Instances of the properties that have a precondition *)

(** X1 on the [Default] story, at the last slide. *)
Lemma arrows_step_modulo_witness :
  dispatch Sample.Default {| currentSlide := 2 |} ClickNext
  = ({| currentSlide := (2 + 1) mod 3 |}, []) /\
  dispatch Sample.Default {| currentSlide := 2 |} ClickPrev
  = ({| currentSlide := (2 - 1 + 3) mod 3 |}, []).
Proof.
  apply (arrows_step_modulo Sample.Default {| currentSlide := 2 |}).
  unfold inRange; simpl; lia.
Defined.

(** X2 on the [Default] story, at the first slide. *)
Lemma advance_after_retreat_witness :
  run Sample.Default initialState [ClickPrev; ClickNext] = (initialState, []).
Proof.
  apply (advance_after_retreat Sample.Default initialState).
  unfold inRange; simpl; lia.
Defined.

(** X3 on the [Default] story: three retreats from the middle slide. *)
Lemma retreat_k_times_witness :
  run Sample.Default {| currentSlide := 1 |} (replicate 3 ClickPrev)
  = ({| currentSlide := 1 |}, []).
Proof.
  apply (retreat_k_times Sample.Default {| currentSlide := 1 |} 3).
  unfold inRange; simpl; lia.
Defined.

(** X4 on the [Default] story, at the first slide. *)
Lemma retreat_is_advances_around_witness :
  handlePrevSlide Sample.mockFeaturedAgents initialState
  = Nat.iter 2 (handleNextSlide Sample.mockFeaturedAgents) initialState.
Proof.
  apply (retreat_is_advances_around Sample.Default initialState).
  unfold inRange; simpl; lia.
Defined.

(** X5 on the [Default] story: from the last slide to the middle one. *)
Lemma every_slide_reachable_witness :
  currentSlide
    (fst (run Sample.Default {| currentSlide := 2 |}
            (replicate (Z.to_nat ((Z.of_nat 1 - 2) mod 3)) ClickNext)))
  = 1.
Proof.
  apply (every_slide_reachable Sample.Default {| currentSlide := 2 |} 1).
  - unfold inRange; simpl; lia.
  - simpl; lia.
Defined.

(** X6 on the [Default] story, after two clicks. *)
Lemma one_active_mark_at_startIndex_witness :
  exists i : nat,
    (i < 3)%nat /\
    startIndex (carouselOpts (FeaturedSection Sample.Default
                  (fst (run Sample.Default initialState [ClickNext; ClickNext]))))
    = Z.of_nat i /\
    indicators (FeaturedSection Sample.Default
                  (fst (run Sample.Default initialState [ClickNext; ClickNext])))
    = replicate i indicatorIdle ++ indicatorActive :: replicate (3 - S i) indicatorIdle.
Proof.
  apply (one_active_mark_at_startIndex Sample.Default [ClickNext; ClickNext]).
  simpl; lia.
Defined.

(** X7 on the [NoAgents] story. *)
Lemma empty_collection_runs_witness :
  run Sample.NoAgents initialState [ClickNext; ClickNext; ClickCard 0; ClickPrev]
  = ({| currentSlide := 0 + 1 |}, []).
Proof.
  apply (empty_collection_runs Sample.NoAgents
           [ClickNext; ClickNext; ClickCard 0; ClickPrev] initialState).
  reflexivity.
Defined.

(** X8 on the [SingleAgent] story. *)
Lemma single_agent_stays_witness :
  fst (run MoreSamples.SingleAgent initialState [ClickNext; ClickPrev; ClickPrev])
  = initialState.
Proof.
  apply (single_agent_stays MoreSamples.SingleAgent [ClickNext; ClickPrev; ClickPrev]).
  reflexivity.
Defined.

(** X10 on the creator of the story. *)
Lemma pushed_path_determines_agent_witness :
  "WordCraft AI" = "WordCraft AI" /\ "content-writer-ai" = "content-writer-ai".
Proof.
  apply (pushed_path_determines_agent
           "WordCraft AI" "content-writer-ai" "WordCraft AI" "content-writer-ai");
    reflexivity.
Defined.

(** X11 on two rows, in the locale en-US. *)
Lemma checkboxId_distinct_witness :
  AgentTableRow.checkboxId
    (AgentTableRow.AgentTableRow (H := Ecma.enUS) (MoreSamples.rowWithId "1"))
  <> AgentTableRow.checkboxId
       (AgentTableRow.AgentTableRow (H := Ecma.enUS) (MoreSamples.rowWithId "2")).
Proof.
  apply (checkboxId_distinct (H := Ecma.enUS)
           (MoreSamples.rowWithId "1") (MoreSamples.rowWithId "2")).
  discriminate.
Defined.

(** X12 on the [Default] story, with an index left over from a longer list. *)
Lemma beyond_last_slide_no_wrap_witness :
  run Sample.Default {| currentSlide := 5 |} (replicate 4 ClickNext)
  = ({| currentSlide := 5 + Z.of_nat 4 |}, []).
Proof.
  apply (beyond_last_slide_no_wrap Sample.Default {| currentSlide := 5 |} 4).
  simpl; lia.
Defined.

(** X14 on the [Default] story. *)
Lemma run_index_closed_form_witness :
  currentSlide
    (fst (run Sample.Default initialState [ClickPrev; ClickCard 2; ClickPrev; ClickNext]))
  = (0 + Clicks.netClicks [ClickPrev; ClickCard 2; ClickPrev; ClickNext]) mod 3.
Proof.
  apply (run_index_closed_form Sample.Default
           [ClickPrev; ClickCard 2; ClickPrev; ClickNext] initialState).
  unfold inRange; simpl; lia.
Defined.
